(** * A shallow embedding of [sie_banxico.SIEBanxico]

    The Python class keeps a token, a series selector and a mutable
    [params] dict, and performs [requests.get] calls.  We model:
    - Python values that the methods may receive ([pyval]);
    - the three exception kinds the class raises ([exn]);
    - the object's attributes ([client]);
    - the outside world as the object plus the log of HTTP requests sent so
      far ([world]), and the HTTP transport as a function [net] from a
      request to a response;
    - method bodies in a state and exception monad [M]: state changes made
      before a [raise] persist, as they do in Python. *)

From Stdlib Require Import ZArith Ascii String List Bool.
From stdpp Require Import base gmap strings.
Import ListNotations.
Open Scope string_scope.
Local Set Warnings "-register-all".

(** ** Python values *)

Inductive pyval :=
| PNone
| PBool (b : bool)
| PInt (z : Z)
| PStr (s : string)
| PList (l : list pyval).

(** Python [==] on these values ([True == 1] included). *)
Fixpoint py_eq (a b : pyval) : bool :=
  match a, b with
  | PNone, PNone => true
  | PBool x, PBool y => Bool.eqb x y
  | PInt x, PInt y => Z.eqb x y
  | PBool x, PInt y => Z.eqb (Z.b2z x) y
  | PInt x, PBool y => Z.eqb x (Z.b2z y)
  | PStr x, PStr y => String.eqb x y
  | PList xs, PList ys =>
      (fix go (xs ys : list pyval) : bool :=
         match xs, ys with
         | [], [] => true
         | x :: xs', y :: ys' => py_eq x y && go xs' ys'
         | _, _ => false
         end) xs ys
  | _, _ => false
  end.

(** [x in l] *)
Definition py_in (x : pyval) (l : list pyval) : bool := existsb (py_eq x) l.

(** [type(x) == str] *)
Definition is_str (v : pyval) : bool :=
  match v with PStr _ => true | _ => false end.

(** [isinstance(x, list)] *)
Definition is_list (v : pyval) : bool :=
  match v with PList _ => true | _ => false end.

(** ** Exceptions *)

Inductive exn :=
| TypeError (msg : string)
| ValueError (msg : string)
| RequestException (msg : string).

Definition is_type_error (e : exn) : bool :=
  match e with TypeError _ => true | _ => false end.
Definition is_value_error (e : exn) : bool :=
  match e with ValueError _ => true | _ => false end.

(** [a + b] on strings; other operand types raise. *)
Definition py_add (a b : pyval) : exn + pyval :=
  match a, b with
  | PStr x, PStr y => inr (PStr (x ++ y))
  | _, _ => inl (TypeError "unsupported operand type(s) for +")
  end.

(** [sep.join(l)]: every item must be a [str]. *)
Fixpoint join_rest (sep : string) (l : list pyval) : exn + string :=
  match l with
  | [] => inr ""
  | PStr s :: t =>
      match join_rest sep t with
      | inl e => inl e
      | inr r => inr (sep ++ s ++ r)
      end
  | _ :: _ => inl (TypeError "sequence item: expected str instance")
  end.

Definition py_join (sep : string) (l : list pyval) : exn + string :=
  match l with
  | [] => inr ""
  | PStr s :: t =>
      match join_rest sep t with
      | inl e => inl e
      | inr r => inr (s ++ r)
      end
  | _ :: _ => inl (TypeError "sequence item: expected str instance")
  end.

(** Decimal rendering of an integer, as an f-string prints it. *)
Definition digit_char (d : N) : ascii := ascii_of_N (48 + d).

Fixpoint N_dec_go (fuel : nat) (n : N) (acc : string) : string :=
  match fuel with
  | O => acc
  | S f =>
      let acc' := String (digit_char (N.modulo n 10)) acc in
      if N.eqb (N.div n 10) 0 then acc' else N_dec_go f (N.div n 10) acc'
  end.

Definition N_dec (n : N) : string := N_dec_go (S (N.size_nat n)) n "".

Definition Z_dec (z : Z) : string :=
  if Z.ltb z 0 then "-" ++ N_dec (Z.to_N (- z)) else N_dec (Z.to_N z).

Definition newline : string := String (ascii_of_nat 10) "".

(** ** JSON bodies, requests and responses *)

Inductive json :=
| JNull
| JBool (b : bool)
| JNum (z : Z)
| JStr (s : string)
| JArr (l : list json)
| JObj (l : list (string * json)).

Record request := mkRequest {
  req_url : string;
  req_headers : gmap string pyval;
  req_params : gmap string pyval
}.

Record response := mkResponse {
  status_code : Z;
  resp_body : json
}.

(** [response.json()] *)
Definition response_json (r : response) : json := resp_body r.

(** ** The object and the world *)

Record client := mkClient {
  token : pyval;
  series : pyval;
  url : string;
  headers : gmap string pyval;
  params : gmap string pyval;
  language : pyval
}.

Record world := mkWorld {
  cl : client;
  sent : list request
}.

(** ** The state and exception monad *)

Definition M (A : Type) : Type := world -> world * (exn + A).

Global Instance M_ret : MRet M := fun A a w => (w, inr a).
Global Instance M_bind : MBind M := fun A B f m w =>
  match m w with
  | (w', inl e) => (w', inl e)
  | (w', inr a) => f a w'
  end.

Definition raise {A} (e : exn) : M A := fun w => (w, inl e).
Definition lift {A} (r : exn + A) : M A := fun w => (w, r).
Definition get_self : M client := fun w => (w, inr (cl w)).
Definition put_self (c : client) : M unit :=
  fun w => (mkWorld c (sent w), inr tt).

(** [requests.get(url, headers=..., params=...)]: the request is sent
    (appended to the log) and the transport's response returned. *)
Definition http_get (net : request -> response) (u : string)
    (h : gmap string pyval) (p : gmap string pyval) : M response :=
  fun w => let r := mkRequest u h p in
           (mkWorld (cl w) (sent w ++ [r]), inr (net r)).

(** Attribute updates. *)
Definition with_token (c : client) (v : pyval) : client :=
  mkClient v (series c) (url c) (headers c) (params c) (language c).
Definition with_series (c : client) (v : pyval) : client :=
  mkClient (token c) v (url c) (headers c) (params c) (language c).
Definition with_params (c : client) (p : gmap string pyval) : client :=
  mkClient (token c) (series c) (url c) (headers c) p (language c).

(** [str + x] where the left operand is a [str]. *)
Definition str_add (a : string) (b : pyval) : exn + string :=
  match b with
  | PStr y => inr (a ++ y)
  | _ => inl (TypeError "can only concatenate str to str")
  end.

(** ** Methods *)

Definition base_url : string :=
  "https://www.banxico.org.mx/SieAPIRest/service/v1/series/".

(** [set_token] *)
Definition set_token (tok : pyval) : M unit :=
  if negb (is_str tok) then raise (TypeError "token must be a string.")
  else self ← get_self; put_self (with_token self tok).

(** [set_id_series] *)
Definition set_id_series (id_series : pyval) : M unit :=
  if negb (is_list id_series || is_str id_series) then
    raise (TypeError "id_series must be a list with strings or a single string.")
  else
    match id_series with
    | PList l =>
        j ← lift (py_join "," l);
        self ← get_self; put_self (with_series self (PStr j))
    | _ => self ← get_self; put_self (with_series self id_series)
    end.

(** [append_id_series]: [self.series += ',' + ','.join(id_series)] *)
Definition append_id_series (id_series : pyval) : M unit :=
  match id_series with
  | PList l =>
      self ← get_self;
      j ← lift (py_join "," l);
      rhs ← lift (py_add (PStr ",") (PStr j));
      s ← lift (py_add (series self) rhs);
      put_self (with_series self s)
  | _ => raise (TypeError "id_series must be a list with strings.")
  end.

(** [__set_language] *)
Definition set_language : M unit :=
  self ← get_self;
  let lang := language self in
  if negb (is_str lang) then raise (TypeError "language must be a string.")
  else if py_eq lang (PStr "en") || py_eq lang (PStr "es") then
    put_self (with_params self (<["locale" := lang]> (params self)))
  else raise (ValueError "language is not defined. Try en for english or es for spanish.").

Definition pct_change_values : list pyval :=
  [PNone; PStr "PorcObsAnt"; PStr "PorcAnual"; PStr "PorcAcumAnual"].

(** [__set_pct_change] *)
Definition set_pct_change (pct_change : pyval) : M unit :=
  if negb (py_eq pct_change PNone) && negb (is_str pct_change) then
    raise (TypeError "pct_change must be None or a string.")
  else if negb (py_in pct_change pct_change_values) then
    raise (ValueError "pct_change is not defined.")
  else
    self ← get_self;
    put_self (with_params self (<["incremento" := pct_change]> (params self))).

Definition hint_series : string :=
  "Something go wrong with the request. Review the token or series id.".
Definition hint_range : string :=
  "Something go wrong with the request. Review the token, series id or date format.".

(** The f-string message of the [RequestException]. *)
Definition request_error_msg (hint : string) (code : Z) : string :=
  hint ++ newline ++ "Status code: " ++ Z_dec code.

(** [if response.status_code != 200: raise ...; return response.json()] *)
Definition finish (hint : string) (resp : response) : M json :=
  if negb (Z.eqb (status_code resp) 200) then
    raise (RequestException (request_error_msg hint (status_code resp)))
  else mret (response_json resp).

Section Fetch.
Variable net : request -> response.

(** [get_metadata] *)
Definition get_metadata : M json :=
  set_pct_change PNone;;
  self ← get_self;
  u ← lift (str_add (url self) (series self));
  resp ← http_get net u (headers self) (params self);
  finish hint_series resp.

(** [get_lastdata] *)
Definition get_lastdata (pct_change : pyval) : M json :=
  set_pct_change pct_change;;
  self ← get_self;
  u ← lift (str_add (url self) (series self));
  resp ← http_get net (u ++ "/datos/oportuno") (headers self) (params self);
  finish hint_series resp.

(** [get_timeseries] *)
Definition get_timeseries (pct_change : pyval) : M json :=
  set_pct_change pct_change;;
  self ← get_self;
  u ← lift (str_add (url self) (series self));
  resp ← http_get net (u ++ "/datos") (headers self) (params self);
  finish hint_series resp.

(** [get_timeseries_range] *)
Definition get_timeseries_range (init_date end_date pct_change : pyval) : M json :=
  set_pct_change pct_change;;
  if negb (is_str init_date) || negb (is_str end_date) then
    raise (TypeError "init_date and end_date must be a string in the format yyyy-mm-dd")
  else
    self ← get_self;
    u1 ← lift (str_add (url self) (series self));
    u2 ← lift (str_add (u1 ++ "/datos/") init_date);
    u3 ← lift (str_add (u2 ++ "/") end_date);
    resp ← http_get net u3 (headers self) (params self);
    finish hint_range resp.

End Fetch.

(** ** Construction *)

(** The object before [__init__] has assigned any attribute. *)
Definition blank_client : client := mkClient PNone PNone "" ∅ ∅ PNone.

(** The body of [__init__]. *)
Definition init_body (tok id_series lang : pyval) : M unit :=
  self ← get_self; put_self (with_token self PNone);;
  set_token tok;;
  self ← get_self; put_self (with_series self PNone);;
  set_id_series id_series;;
  self ← get_self;
  put_self (mkClient (token self) (series self) base_url
              {[ "Bmx-Token" := token self ]} ∅ lang);;
  set_language.

(** [SIEBanxico(token, id_series, language)]: the new object, or the
    exception raised by [__init__].  No request is sent. *)
Definition SIEBanxico (tok id_series lang : pyval) : exn + client :=
  match init_body tok id_series lang (mkWorld blank_client []) with
  | (_, inl e) => inl e
  | (w, inr _) => inr (cl w)
  end.

(** Running a method on an object with an empty request log. *)
Definition run {A} (m : M A) (c : client) : world * (exn + A) :=
  m (mkWorld c []).

(** ** Public calls on an existing object *)

(** The four fetch methods with their arguments. *)
Inductive fetch_call :=
| FMetadata
| FLastdata (pct_change : pyval)
| FTimeseries (pct_change : pyval)
| FTimeseriesRange (init_date end_date pct_change : pyval).

Definition fetch (net : request -> response) (k : fetch_call) : M json :=
  match k with
  | FMetadata => get_metadata net
  | FLastdata p => get_lastdata net p
  | FTimeseries p => get_timeseries net p
  | FTimeseriesRange i e p => get_timeseries_range net i e p
  end.

(** The hint of the [RequestException] message of each fetch method. *)
Definition fetch_hint (k : fetch_call) : string :=
  match k with
  | FTimeseriesRange _ _ _ => hint_range
  | _ => hint_series
  end.

(** Every public method, with its arguments. *)
Inductive method_call :=
| CSetToken (tok : pyval)
| CSetIdSeries (id_series : pyval)
| CAppendIdSeries (id_series : pyval)
| CFetch (k : fetch_call).

Definition invoke (net : request -> response) (mc : method_call) : M unit :=
  match mc with
  | CSetToken v => set_token v
  | CSetIdSeries v => set_id_series v
  | CAppendIdSeries v => append_id_series v
  | CFetch k => fetch net k;; mret tt
  end.

(** Objects a program can hold: built by the constructor, then changed by
    public calls, whether they return or raise. *)
Inductive reachable (net : request -> response) : client -> Prop :=
| reach_new tok id_series lang c :
    SIEBanxico tok id_series lang = inr c -> reachable net c
| reach_call c mc :
    reachable net c -> reachable net (cl (fst (run (invoke net mc) c))).

(** The [params] invariant of the data model. *)
Definition params_invariant (p : gmap string pyval) : Prop :=
  (p !! "locale" = Some (PStr "en") \/ p !! "locale" = Some (PStr "es")) /\
  (p !! "incremento" = None \/
   exists v, p !! "incremento" = Some v /\ In v pct_change_values).

(** ** Sample runs *)

(** A transport that answers [status] with a fixed body. *)
Definition const_net (status : Z) (b : json) : request -> response :=
  fun _ => mkResponse status b.

Definition sample_body : json :=
  JObj [("bmx", JObj [("series", JArr [])])].

Definition sample_client : client :=
  match SIEBanxico (PStr "tokA") (PList [PStr "SF43718"; PStr "SF46410"]) (PStr "en") with
  | inr c => c
  | inl _ => blank_client
  end.

Example sample_client_series :
  series sample_client = PStr "SF43718,SF46410".
Proof. reflexivity. Qed.

Example sample_metadata :
  run (get_metadata (const_net 200 sample_body)) sample_client =
  (mkWorld (with_params sample_client
              (<["incremento" := PNone]> (params sample_client)))
     [mkRequest (base_url ++ "SF43718,SF46410")
        {[ "Bmx-Token" := PStr "tokA" ]}
        (<["incremento" := PNone]> {[ "locale" := PStr "en" ]})],
   inr sample_body).
Proof. reflexivity. Qed.

Example sample_404 :
  snd (run (get_timeseries (const_net 404 JNull) (PStr "PorcAnual")) sample_client) =
  inl (RequestException (hint_series ++ newline ++ "Status code: 404")).
Proof. reflexivity. Qed.

Example sample_bad_lang :
  SIEBanxico (PStr "t") (PStr "S") (PStr "fr") =
  inl (ValueError "language is not defined. Try en for english or es for spanish.").
Proof. reflexivity. Qed.

(** ** Lemmas on strings and [str.join] *)

Lemma str_app_cons (a : ascii) (s t : string) : String a s ++ t = String a (s ++ t).
Proof. reflexivity. Qed.

Lemma str_app_nil_l (s : string) : "" ++ s = s.
Proof. reflexivity. Qed.

Lemma str_app_nil_r (s : string) : s ++ "" = s.
Proof. induction s as [|a s IH]; [reflexivity | rewrite str_app_cons; f_equal; exact IH]. Qed.

Lemma str_app_assoc (a b d : string) : (a ++ b) ++ d = a ++ (b ++ d).
Proof. induction a as [|x a IH]; [reflexivity | rewrite !str_app_cons; f_equal; exact IH]. Qed.

Lemma join_rest_strs (sep : string) (l : list string) :
  join_rest sep (map PStr l) = inr (fold_right (fun x acc => sep ++ x ++ acc) "" l).
Proof. induction l as [|x l IH]; simpl; [reflexivity | now rewrite IH]. Qed.

Lemma py_join_strs (sep : string) (l : list string) :
  py_join sep (map PStr l) = inr (String.concat sep l).
Proof.
  destruct l as [|x l]; [reflexivity|].
  simpl. rewrite join_rest_strs. f_equal.
  revert x. induction l as [|y l IH]; intros x; simpl.
  - apply str_app_nil_r.
  - change (String.concat sep (x :: y :: l))
      with (x ++ sep ++ String.concat sep (y :: l)).
    rewrite <- IH. reflexivity.
Qed.

Lemma join_rest_non_str (sep : string) (l : list pyval) :
  (exists x, In x l /\ is_str x = false) ->
  exists msg, join_rest sep l = inl (TypeError msg).
Proof.
  induction l as [|x l IH]; intros [y [Hin Hy]]; [destruct Hin|].
  destruct Hin as [Heq | Hin].
  - subst x. destruct y; try discriminate; eexists; reflexivity.
  - destruct x; try (eexists; reflexivity).
    simpl. destruct IH as [msg ->]; [eauto | eexists; reflexivity].
Qed.

Lemma py_join_non_str (sep : string) (l : list pyval) :
  (exists x, In x l /\ is_str x = false) ->
  exists msg, py_join sep l = inl (TypeError msg).
Proof.
  intros Hx. destruct l as [|x l]; [destruct Hx as [? [[] _]]|].
  destruct x; try (eexists; reflexivity).
  simpl. destruct (join_rest_non_str sep l) as [msg ->].
  - destruct Hx as [y [[<- | Hin] Hy]]; [discriminate | eauto].
  - eexists; reflexivity.
Qed.

(** ** What [set_id_series] and the constructor compute *)

(** The value [set_id_series] stores, or the exception it raises. *)
Definition selector_of (v : pyval) : exn + pyval :=
  if negb (is_list v || is_str v) then
    inl (TypeError "id_series must be a list with strings or a single string.")
  else
    match v with
    | PList l => match py_join "," l with inl e => inl e | inr j => inr (PStr j) end
    | _ => inr v
    end.

Lemma set_id_series_eq (v : pyval) (w : world) :
  set_id_series v w =
  match selector_of v with
  | inl e => (w, inl e)
  | inr s => (mkWorld (with_series (cl w) s) (sent w), inr tt)
  end.
Proof.
  destruct v; try reflexivity.
  unfold set_id_series, selector_of; simpl.
  destruct (py_join "," l); reflexivity.
Qed.

Lemma SIEBanxico_eq (tok id_series lang : pyval) :
  SIEBanxico tok id_series lang =
  if negb (is_str tok) then inl (TypeError "token must be a string.") else
  match selector_of id_series with
  | inl e => inl e
  | inr s =>
      if negb (is_str lang) then inl (TypeError "language must be a string.")
      else if py_eq lang (PStr "en") || py_eq lang (PStr "es") then
        inr (mkClient tok s base_url {[ "Bmx-Token" := tok ]}
               {[ "locale" := lang ]} lang)
      else inl (ValueError "language is not defined. Try en for english or es for spanish.")
  end.
Proof.
  unfold SIEBanxico, init_body.
  destruct tok; try reflexivity.
  cbv beta iota zeta delta [mbind M_bind get_self put_self set_token is_str negb].
  rewrite set_id_series_eq.
  destruct (selector_of id_series); [reflexivity|].
  destruct lang; try reflexivity.
  unfold set_language.
  cbv beta iota zeta delta [mbind M_bind get_self put_self is_str negb].
  simpl. destruct (String.eqb s0 "en"), (String.eqb s0 "es"); reflexivity.
Qed.

Lemma selector_of_strs (ids : list string) :
  selector_of (PList (map PStr ids)) = inr (PStr (String.concat "," ids)).
Proof. unfold selector_of. simpl. rewrite py_join_strs. reflexivity. Qed.

Lemma SIEBanxico_series (tok id_series lang : pyval) (c : client) (s : pyval) :
  selector_of id_series = inr s ->
  SIEBanxico tok id_series lang = inr c -> series c = s.
Proof.
  intros Hs H. rewrite SIEBanxico_eq, Hs in H.
  destruct (is_str tok); simpl in H; [|discriminate].
  destruct (is_str lang); simpl in H; [|discriminate].
  destruct (py_eq lang (PStr "en") || py_eq lang (PStr "es")); [|discriminate].
  injection H as <-. reflexivity.
Qed.

Ltac run_m := cbv beta iota zeta delta [run mbind M_bind mret M_ret get_self put_self lift raise].

Lemma append_id_series_eq (l : list pyval) (w : world) :
  append_id_series (PList l) w =
  match py_join "," l with
  | inl e => (w, inl e)
  | inr j =>
      match py_add (series (cl w)) (PStr ("," ++ j)) with
      | inl e => (w, inl e)
      | inr s => (mkWorld (with_series (cl w) s) (sent w), inr tt)
      end
  end.
Proof.
  unfold append_id_series. run_m.
  destruct w as [c log]. simpl.
  destruct (py_join "," l); [reflexivity|].
  simpl. destruct (py_add (series c) (PStr ("," ++ s))); reflexivity.
Qed.

(** ** Claim C5 *)

(** C5: [set_id_series] (and the constructor) store a list of strings as
    its items joined with ["," ] in input order and a single string as it
    is; any other argument raises a [TypeError] and changes nothing. *)
Theorem set_id_series_join :
  (forall (c : client) (ids : list string),
     run (set_id_series (PList (map PStr ids))) c =
     (mkWorld (with_series c (PStr (String.concat "," ids))) [], inr tt)) /\
  (forall (c : client) (s : string),
     run (set_id_series (PStr s)) c =
     (mkWorld (with_series c (PStr s)) [], inr tt)) /\
  (forall (c : client) (v : pyval),
     is_str v = false -> is_list v = false ->
     exists msg, run (set_id_series v) c = (mkWorld c [], inl (TypeError msg))) /\
  (forall (tok lang : pyval) (ids : list string) (c : client),
     SIEBanxico tok (PList (map PStr ids)) lang = inr c ->
     series c = PStr (String.concat "," ids)) /\
  (forall (tok lang : pyval) (s : string) (c : client),
     SIEBanxico tok (PStr s) lang = inr c -> series c = PStr s).
Proof.
  split; [|split; [|split; [|split]]].
  - intros c ids. unfold run. rewrite set_id_series_eq, selector_of_strs. reflexivity.
  - intros c s. reflexivity.
  - intros c v Hs Hl. unfold run. rewrite set_id_series_eq.
    unfold selector_of. rewrite Hs, Hl. eexists; reflexivity.
  - intros tok lang ids c. apply SIEBanxico_series, selector_of_strs.
  - intros tok lang s c. apply SIEBanxico_series. reflexivity.
Qed.

Lemma set_id_series_join_witness :
  run (set_id_series (PInt 7)) sample_client =
    (mkWorld sample_client [], inl (TypeError
      "id_series must be a list with strings or a single string.")) /\
  series (match SIEBanxico (PStr "t") (PList [PStr "A"; PStr "B"]) (PStr "es") with
          | inr c => c | inl _ => blank_client end) = PStr "A,B".
Proof.
  destruct set_id_series_join as [_ [_ [H3 [H4 _]]]]. split.
  - destruct (H3 sample_client (PInt 7) eq_refl eq_refl) as [msg Hm].
    rewrite Hm. vm_compute in Hm. injection Hm as <-. reflexivity.
  - apply (H4 (PStr "t") (PStr "es") ["A"; "B"]). vm_compute. reflexivity.
Defined.

(** ** Claim C6 *)

(** C6: [append_id_series] raises a [TypeError] on any argument that is not
    a list (a bare string included), and on a list of strings replaces the
    selector with the old one, [","], and the items joined with [","];
    [append_id_series(["B"])] after [set_id_series(["A"])] gives ["A,B"]. *)
Theorem append_id_series_spec :
  (forall (c : client) (v : pyval), is_list v = false ->
     exists msg, run (append_id_series v) c = (mkWorld c [], inl (TypeError msg))) /\
  (forall (c : client) (old : string) (ids : list string),
     series c = PStr old ->
     run (append_id_series (PList (map PStr ids))) c =
     (mkWorld (with_series c (PStr (old ++ "," ++ String.concat "," ids))) [], inr tt)) /\
  (forall (c : client) (s : string),
     exists msg, run (append_id_series (PStr s)) c = (mkWorld c [], inl (TypeError msg))) /\
  (forall (c : client),
     run (set_id_series (PList [PStr "A"]);; append_id_series (PList [PStr "B"])) c =
     (mkWorld (with_series c (PStr "A,B")) [], inr tt)).
Proof.
  split; [|split; [|split]].
  - intros c v Hl. destruct v; try discriminate; eexists; reflexivity.
  - intros c old ids Hs. unfold run. rewrite append_id_series_eq, py_join_strs.
    simpl. rewrite Hs. reflexivity.
  - intros c s. eexists; reflexivity.
  - intros c. reflexivity.
Qed.

Lemma append_id_series_spec_witness :
  run (append_id_series (PList [PStr "SF1"])) sample_client =
  (mkWorld (with_series sample_client (PStr "SF43718,SF46410,SF1")) [], inr tt).
Proof.
  destruct append_id_series_spec as [_ [H2 _]].
  apply (H2 sample_client "SF43718,SF46410" ["SF1"]). reflexivity.
Defined.

(** ** Claim C10 *)

(** C10: a list argument with an item that is not a string makes both
    [set_id_series] and [append_id_series] raise a [TypeError] (from
    [str.join]) and leaves the object unchanged. *)
Theorem non_str_item_type_error (c : client) (l : list pyval)
    (Hx : exists x, In x l /\ is_str x = false) :
  (exists msg, run (set_id_series (PList l)) c = (mkWorld c [], inl (TypeError msg))) /\
  (exists msg, run (append_id_series (PList l)) c = (mkWorld c [], inl (TypeError msg))).
Proof.
  destruct (py_join_non_str "," l Hx) as [msg Hj].
  split; exists msg; unfold run.
  - rewrite set_id_series_eq. unfold selector_of. simpl. rewrite Hj. reflexivity.
  - rewrite append_id_series_eq, Hj. reflexivity.
Qed.

Lemma non_str_item_type_error_witness :
  (exists x, In x [PStr "SF1"; PInt 5] /\ is_str x = false) /\
  exists msg, run (append_id_series (PList [PStr "SF1"; PInt 5])) sample_client =
              (mkWorld sample_client [], inl (TypeError msg)).
Proof.
  assert (Hx : exists x, In x [PStr "SF1"; PInt 5] /\ is_str x = false)
    by (exists (PInt 5); split; [simpl; auto | reflexivity]).
  split; [exact Hx|].
  apply (non_str_item_type_error sample_client [PStr "SF1"; PInt 5] Hx).
Defined.

(** ** What the fetch methods compute *)

(** The exception [__set_pct_change] raises on [pct_change], if any. *)
Definition pct_check (p : pyval) : option exn :=
  if negb (py_eq p PNone) && negb (is_str p) then
    Some (TypeError "pct_change must be None or a string.")
  else if negb (py_in p pct_change_values) then
    Some (ValueError "pct_change is not defined.")
  else None.

Lemma set_pct_change_eq (p : pyval) (w : world) :
  set_pct_change p w =
  match pct_check p with
  | Some e => (w, inl e)
  | None => (mkWorld (with_params (cl w) (<["incremento" := p]> (params (cl w)))) (sent w),
             inr tt)
  end.
Proof.
  unfold set_pct_change, pct_check.
  destruct (negb (py_eq p PNone) && negb (is_str p)); [reflexivity|].
  destruct (negb (py_in p pct_change_values)); reflexivity.
Qed.

(** The [pct_change] each fetch method passes to [__set_pct_change]. *)
Definition pct_of (k : fetch_call) : pyval :=
  match k with
  | FMetadata => PNone
  | FLastdata p | FTimeseries p | FTimeseriesRange _ _ p => p
  end.

(** The URL each fetch method builds, or the exception raised on the way. *)
Definition url_of (k : fetch_call) (c : client) : exn + string :=
  match k with
  | FMetadata => str_add (url c) (series c)
  | FLastdata _ =>
      match str_add (url c) (series c) with
      | inl e => inl e | inr u => inr (u ++ "/datos/oportuno") end
  | FTimeseries _ =>
      match str_add (url c) (series c) with
      | inl e => inl e | inr u => inr (u ++ "/datos") end
  | FTimeseriesRange i e _ =>
      if negb (is_str i) || negb (is_str e) then
        inl (TypeError "init_date and end_date must be a string in the format yyyy-mm-dd")
      else
        match str_add (url c) (series c) with
        | inl x => inl x
        | inr u1 =>
            match str_add (u1 ++ "/datos/") i with
            | inl x => inl x
            | inr u2 => str_add (u2 ++ "/") e
            end
        end
  end.

(** The outcome of [finish]. *)
Definition finish_result (hint : string) (resp : response) : exn + json :=
  if negb (Z.eqb (status_code resp) 200) then
    inl (RequestException (request_error_msg hint (status_code resp)))
  else inr (response_json resp).

Ltac fin_req :=
  unfold http_get, finish, finish_result; run_m; simpl;
  match goal with |- context [negb (Z.eqb ?s 200)] => destruct (negb (Z.eqb s 200)) end;
  reflexivity.

Lemma fetch_eq (net : request -> response) (k : fetch_call) (w : world) :
  fetch net k w =
  match pct_check (pct_of k) with
  | Some e => (w, inl e)
  | None =>
      let c1 := with_params (cl w) (<["incremento" := pct_of k]> (params (cl w))) in
      match url_of k c1 with
      | inl e => (mkWorld c1 (sent w), inl e)
      | inr u =>
          let rq := mkRequest u (headers c1) (params c1) in
          (mkWorld c1 (sent w ++ [rq]), finish_result (fetch_hint k) (net rq))
      end
  end.
Proof.
  destruct k; simpl fetch;
    unfold get_metadata, get_lastdata, get_timeseries, get_timeseries_range;
    run_m; rewrite set_pct_change_eq; simpl pct_of;
    (destruct (pct_check _); [reflexivity|]); simpl url_of.
  - destruct (str_add _ _); [reflexivity|]. fin_req.
  - destruct (str_add _ _); [reflexivity|]. fin_req.
  - destruct (str_add _ _); [reflexivity|]. fin_req.
  - destruct (negb (is_str init_date) || negb (is_str end_date)); [reflexivity|].
    simpl. destruct (str_add _ (series _)) as [|u1]; [reflexivity|].
    simpl. destruct (str_add _ init_date) as [|u2]; [reflexivity|].
    simpl. destruct (str_add _ end_date); [reflexivity|]. fin_req.
Qed.

Lemma pct_check_In (p : pyval) : In p pct_change_values -> pct_check p = None.
Proof. simpl. intros [<-|[<-|[<-|[<-|[]]]]]; reflexivity. Qed.

Lemma pct_check_None (p : pyval) : pct_check p = None -> In p pct_change_values.
Proof.
  unfold pct_check. destruct p; simpl; try discriminate.
  - intros _. left. reflexivity.
  - destruct (String.eqb_spec s "PorcObsAnt") as [->|]; [right; left; reflexivity|].
    destruct (String.eqb_spec s "PorcAnual") as [->|]; [do 2 right; left; reflexivity|].
    destruct (String.eqb_spec s "PorcAcumAnual") as [->|]; [do 3 right; left; reflexivity|].
    discriminate.
Qed.

(** ** Claim C3 *)

(** C3: for [get_lastdata], [get_timeseries] and [get_timeseries_range], a
    [pct_change] of [None], ["PorcObsAnt"], ["PorcAnual"] or
    ["PorcAcumAnual"] is written into [params] under ["incremento"]
    (overwriting any earlier value) before any request, and every request
    sent carries it; any other string raises a [ValueError] and any
    non-string non-[None] value a [TypeError], with no request sent and the
    object unchanged. *)
Theorem pct_change_validation (net : request -> response) (k : fetch_call) (c : client) :
  k <> FMetadata ->
  let p := pct_of k in
  let (w, r) := run (fetch net k) c in
  (In p pct_change_values ->
     params (cl w) = <["incremento" := p]> (params c) /\
     Forall (fun rq => req_params rq = <["incremento" := p]> (params c)) (sent w)) /\
  (forall s, p = PStr s -> s <> "PorcObsAnt" -> s <> "PorcAnual" -> s <> "PorcAcumAnual" ->
     w = mkWorld c [] /\ exists msg, r = inl (ValueError msg)) /\
  (p <> PNone -> is_str p = false ->
     w = mkWorld c [] /\ exists msg, r = inl (TypeError msg)).
Proof.
  intros _ p. unfold run. rewrite fetch_eq. simpl cl; simpl sent. fold p.
  clearbody p.
  destruct (pct_check p) as [e|] eqn:Hc; cbn iota beta zeta.
  - split; [intros Hin; rewrite (pct_check_In p Hin) in Hc; discriminate|].
    split.
    + intros s Hp H1 H2 H3. split; [reflexivity|]. subst p.
      unfold pct_check in Hc. simpl in Hc.
      apply String.eqb_neq in H1, H2, H3. rewrite H1, H2, H3 in Hc.
      simpl in Hc. injection Hc as <-. eexists; reflexivity.
    + intros Hn Hs. split; [reflexivity|].
      destruct p; simpl in Hs; try discriminate; try contradiction;
        unfold pct_check in Hc; simpl in Hc; injection Hc as <-; eexists; reflexivity.
  - apply pct_check_None in Hc.
    assert (HV : forall s, p = PStr s -> s <> "PorcObsAnt" -> s <> "PorcAnual" ->
                 s <> "PorcAcumAnual" -> False).
    { intros s Hp H1 H2 H3. subst p. simpl in Hc.
      destruct Hc as [Hc|[Hc|[Hc|[Hc|[]]]]]; try discriminate;
        injection Hc as Hc; congruence. }
    assert (HT : p <> PNone -> is_str p = false -> False).
    { intros Hn Hs. simpl in Hc.
      destruct Hc as [Hc|[Hc|[Hc|[Hc|[]]]]]; subst p; try contradiction; discriminate. }
    destruct (url_of k _); cbn iota beta zeta;
      (split; [intros _; simpl; split; [reflexivity | repeat constructor]
              | split; [intros s' Hp H1 H2 H3; exfalso; exact (HV s' Hp H1 H2 H3)
                       | intros Hn Hs; exfalso; exact (HT Hn Hs)]]).
Qed.

Lemma pct_change_validation_witness :
  let k := FLastdata (PStr "PorcAnual") in
  k <> FMetadata /\
  params (cl (fst (run (fetch (const_net 200 JNull) k) sample_client))) =
  <["incremento" := PStr "PorcAnual"]> (params sample_client).
Proof.
  intros k. assert (Hk : k <> FMetadata) by discriminate. split; [exact Hk|].
  pose proof (pct_change_validation (const_net 200 JNull) k sample_client Hk) as H.
  cbv zeta in H. destruct (run (fetch (const_net 200 JNull) k) sample_client) as [w r].
  destruct H as [H _]. apply H. simpl. auto.
Defined.

(** ** Claim C2 *)

(** C2, counterexample: [get_timeseries_range] writes [pct_change] into
    [params] before it checks the dates, so a non-string [end_date] raises
    the [TypeError] after ["incremento"] has changed. *)
Lemma range_bad_date_overwrites_incremento :
  let c := with_params sample_client
             (<["incremento" := PStr "PorcAnual"]> (params sample_client)) in
  let (w, r) := run (get_timeseries_range (const_net 200 JNull)
                       (PStr "2020-01-01") (PInt 2020) PNone) c in
  (exists msg, r = inl (TypeError msg)) /\ sent w = [] /\
  params c !! "incremento" = Some (PStr "PorcAnual") /\
  params (cl w) !! "incremento" = Some PNone.
Proof.
  simpl. split; [eexists; reflexivity|]. split; [reflexivity|]. split; reflexivity.
Qed.

(** C2 (amended): a fetch call that raises anything but a
    [RequestException] has sent no request; when [pct_change] is invalid the
    object is unchanged; but [get_timeseries_range] with a valid
    [pct_change] and a non-string date raises a [TypeError] after writing
    [pct_change] into [params] under ["incremento"]. *)
Theorem validation_errors_before_request (net : request -> response)
    (k : fetch_call) (c : client) :
  let (w, r) := run (fetch net k) c in
  (forall e, r = inl e -> (forall msg, e <> RequestException msg) -> sent w = []) /\
  (~ In (pct_of k) pct_change_values -> w = mkWorld c []) /\
  (forall i d p, k = FTimeseriesRange i d p -> In p pct_change_values ->
     is_str i = false \/ is_str d = false ->
     w = mkWorld (with_params c (<["incremento" := p]> (params c))) [] /\
     exists msg, r = inl (TypeError msg)).
Proof.
  unfold run. rewrite fetch_eq. simpl cl; simpl sent.
  destruct (pct_check (pct_of k)) as [e|] eqn:Hc; cbn iota beta zeta.
  - split; [|split].
    + intros; reflexivity.
    + intros _; reflexivity.
    + intros i d p -> Hin _. simpl in Hc.
      rewrite (pct_check_In p Hin) in Hc. discriminate.
  - apply pct_check_None in Hc.
    destruct (url_of k _) as [x|u] eqn:Hu; cbn iota beta zeta; (split; [|split]).
    + intros; reflexivity.
    + intros Hn; contradiction.
    + intros i d p -> Hin Hstr. split; [reflexivity|].
      simpl in Hu. destruct Hstr as [H|H]; rewrite H in Hu; simpl in Hu;
        [|rewrite orb_true_r in Hu]; injection Hu as <-; eexists; reflexivity.
    + intros e He Hne. exfalso. revert He. unfold finish_result.
      destruct (negb _); intros He; [|discriminate].
      injection He as <-. exact (Hne _ eq_refl).
    + intros Hn; contradiction.
    + intros i d p -> Hin Hstr. exfalso.
      simpl in Hu. destruct Hstr as [H|H]; rewrite H in Hu; simpl in Hu;
        [|rewrite orb_true_r in Hu]; discriminate.
Qed.

Lemma validation_errors_before_request_witness :
  let k := FTimeseriesRange (PStr "2020-01-01") (PInt 2020) (PStr "PorcObsAnt") in
  fst (run (fetch (const_net 200 JNull) k) sample_client) =
  mkWorld (with_params sample_client
             (<["incremento" := PStr "PorcObsAnt"]> (params sample_client))) [].
Proof.
  intros k.
  pose proof (validation_errors_before_request (const_net 200 JNull) k sample_client) as H.
  destruct (run (fetch (const_net 200 JNull) k) sample_client) as [w r].
  destruct H as [_ [_ H]].
  destruct (H (PStr "2020-01-01") (PInt 2020) (PStr "PorcObsAnt") eq_refl) as [Hw _].
  - simpl. auto.
  - right. reflexivity.
  - exact Hw.
Defined.

(** ** Claim C4 *)

Lemma pct_check_not_request (p : pyval) (msg : string) :
  pct_check p <> Some (RequestException msg).
Proof.
  unfold pct_check.
  destruct (negb (py_eq p PNone) && negb (is_str p)); [discriminate|].
  destruct (negb (py_in p pct_change_values)); discriminate.
Qed.

Lemma str_add_not_request (a : string) (b : pyval) (msg : string) :
  str_add a b <> inl (RequestException msg).
Proof. destruct b; discriminate. Qed.

Lemma url_of_not_request (k : fetch_call) (c : client) (msg : string) :
  url_of k c <> inl (RequestException msg).
Proof.
  destruct k as [| p | p | i d p]; simpl.
  - apply str_add_not_request.
  - destruct (str_add _ _) eqn:H; [|discriminate].
    intros He; injection He as ->; revert H; apply str_add_not_request.
  - destruct (str_add _ _) eqn:H; [|discriminate].
    intros He; injection He as ->; revert H; apply str_add_not_request.
  - destruct (negb (is_str i) || negb (is_str d)); [discriminate|].
    destruct (str_add _ (series c)) eqn:H1.
    { intros He; injection He as ->; revert H1; apply str_add_not_request. }
    destruct (str_add _ i) eqn:H2.
    { intros He; injection He as ->; revert H2; apply str_add_not_request. }
    apply str_add_not_request.
Qed.

(** C4, counterexample: a [204 No Content] answer, a 2xx success status,
    raises a [RequestException]. *)
Lemma fetch_204_raises :
  snd (run (get_metadata (const_net 204 sample_body)) sample_client) =
  inl (RequestException (hint_series ++ newline ++ "Status code: 204")).
Proof. reflexivity. Qed.

(** C4 (amended): when a fetch call sends its request, it raises a
    [RequestException] whose message is the hint, a newline,
    ["Status code: "] and the decimal status code exactly when the status is
    not [200], and on [200] returns the response's JSON body unchanged; a
    call that sends no request never raises a [RequestException]. *)
Theorem fetch_status_result (net : request -> response) (k : fetch_call) (c : client) :
  let (w, r) := run (fetch net k) c in
  match sent w with
  | [] => forall msg, r <> inl (RequestException msg)
  | [rq] =>
      r = if Z.eqb (status_code (net rq)) 200 then inr (resp_body (net rq))
          else inl (RequestException (fetch_hint k ++ newline ++ "Status code: "
                                        ++ Z_dec (status_code (net rq))))
  | _ => False
  end.
Proof.
  unfold run. rewrite fetch_eq. simpl cl; simpl sent.
  destruct (pct_check (pct_of k)) as [e|] eqn:Hc; cbn iota beta zeta.
  { intros msg He. injection He as ->. revert Hc. apply pct_check_not_request. }
  destruct (url_of k _) as [e|u] eqn:Hu; cbn iota beta zeta.
  { intros msg He. injection He as ->. revert Hu. apply url_of_not_request. }
  simpl. unfold finish_result, request_error_msg, response_json.
  destruct (Z.eqb _ 200); reflexivity.
Qed.

Lemma Z_dec_404 : Z_dec 404 = "404".
Proof. reflexivity. Qed.

(** ** Claim C8 *)

(** C8, counterexample: with an invalid [pct_change], a non-string date
    does not raise a [TypeError]: [pct_change] is checked first. *)
Lemma range_bad_pct_before_dates :
  snd (run (get_timeseries_range (const_net 200 JNull)
              (PStr "2020-01-01") (PInt 2020) (PStr "bogus")) sample_client) =
  inl (ValueError "pct_change is not defined.").
Proof. reflexivity. Qed.

(** C8 (amended): on an object whose URL is the base URL and whose selector
    is [sel], a fetch call with a valid [pct_change] sends exactly one GET to
    the base URL, [sel] and the method's suffix; [get_timeseries_range] with
    a non-string date raises a [TypeError] instead and sends nothing. *)
Theorem fetch_urls (net : request -> response) (k : fetch_call) (c : client)
    (sel : string) (Hurl : url c = base_url) (Hsel : series c = PStr sel)
    (Hp : In (pct_of k) pct_change_values) :
  let (w, r) := run (fetch net k) c in
  match k with
  | FMetadata => map req_url (sent w) = [base_url ++ sel]
  | FLastdata _ => map req_url (sent w) = [base_url ++ sel ++ "/datos/oportuno"]
  | FTimeseries _ => map req_url (sent w) = [base_url ++ sel ++ "/datos"]
  | FTimeseriesRange (PStr i) (PStr d) _ =>
      map req_url (sent w) = [base_url ++ sel ++ "/datos/" ++ i ++ "/" ++ d]
  | FTimeseriesRange _ _ _ => sent w = [] /\ exists msg, r = inl (TypeError msg)
  end.
Proof.
  unfold run. rewrite fetch_eq, (pct_check_In _ Hp). cbn iota beta zeta.
  destruct k as [| p | p | i d p]; simpl url_of; rewrite ?Hurl, ?Hsel;
    cbn iota beta zeta; simpl; rewrite ?str_app_assoc; try reflexivity.
  destruct i; destruct d; simpl; rewrite ?str_app_assoc;
    try (split; [reflexivity | eexists; reflexivity]); reflexivity.
Qed.

Lemma fetch_urls_witness :
  let k := FTimeseriesRange (PStr "2020-01-01") (PStr "2020-12-31") PNone in
  map req_url (sent (fst (run (fetch (const_net 200 JNull) k) sample_client))) =
  [base_url ++ "SF43718,SF46410" ++ "/datos/" ++ "2020-01-01" ++ "/" ++ "2020-12-31"].
Proof.
  intros k.
  pose proof (fetch_urls (const_net 200 JNull) k sample_client "SF43718,SF46410"
                eq_refl eq_refl (or_introl eq_refl)) as H.
  destruct (run (fetch (const_net 200 JNull) k) sample_client) as [w r].
  exact H.
Defined.

(** ** What a constructed object holds *)

Lemma lang_ok (lang : pyval) :
  py_eq lang (PStr "en") || py_eq lang (PStr "es") = true ->
  lang = PStr "en" \/ lang = PStr "es".
Proof.
  destruct lang; simpl; try discriminate.
  destruct (String.eqb_spec s "en") as [->|]; [left; reflexivity|].
  destruct (String.eqb_spec s "es") as [->|]; [right; reflexivity|].
  discriminate.
Qed.

Lemma SIEBanxico_ok (tok id_series lang : pyval) (c : client) :
  SIEBanxico tok id_series lang = inr c ->
  is_str tok = true /\ selector_of id_series = inr (series c) /\
  url c = base_url /\ headers c = {[ "Bmx-Token" := tok ]} /\
  params c = {[ "locale" := lang ]} /\ (lang = PStr "en" \/ lang = PStr "es").
Proof.
  intros H. rewrite SIEBanxico_eq in H.
  destruct (is_str tok); simpl in H; [|discriminate].
  destruct (selector_of id_series) as [e|s]; [discriminate|].
  destruct (is_str lang); simpl in H; [|discriminate].
  destruct (py_eq lang (PStr "en") || py_eq lang (PStr "es")) eqn:Hl; [|discriminate].
  injection H as <-. simpl. repeat split; try reflexivity. apply lang_ok, Hl.
Qed.

Lemma SIEBanxico_token (tok id_series lang : pyval) (c : client) :
  SIEBanxico tok id_series lang = inr c -> token c = tok.
Proof.
  intros H. rewrite SIEBanxico_eq in H.
  destruct (is_str tok); simpl in H; [|discriminate].
  destruct (selector_of id_series); [discriminate|].
  destruct (is_str lang); simpl in H; [|discriminate].
  destruct (_ || _); [|discriminate]. injection H as <-. reflexivity.
Qed.

(** ** Claim C1 *)

(** C1: the [Bmx-Token] header is built once, from the token given to the
    constructor; after [set_token] replaces the stored token, every request
    still carries the constructor's token. *)
Theorem set_token_header_stale (net : request -> response)
    (tok0 id_series lang : pyval) (c : client) (t : string) (k : fetch_call) :
  SIEBanxico tok0 id_series lang = inr c ->
  let w := fst (run (set_token (PStr t);; fetch net k) c) in
  token (cl w) = PStr t /\
  Forall (fun rq => req_headers rq !! "Bmx-Token" = Some tok0) (sent w).
Proof.
  intros H. destruct (SIEBanxico_ok _ _ _ _ H) as [_ [_ [_ [Hh _]]]].
  cbv zeta. unfold run. run_m. unfold set_token. simpl is_str. cbn iota beta.
  run_m. simpl. rewrite fetch_eq. simpl.
  destruct (pct_check (pct_of k)); simpl; [split; [reflexivity | constructor]|].
  destruct (url_of k _); simpl; (split; [reflexivity|]); repeat constructor.
  simpl. rewrite Hh. apply lookup_singleton_eq.
Qed.

Lemma set_token_header_stale_witness :
  let w := fst (run (set_token (PStr "tokB");; fetch (const_net 200 JNull) FMetadata)
                  sample_client) in
  token (cl w) = PStr "tokB" /\
  Forall (fun rq => req_headers rq !! "Bmx-Token" = Some (PStr "tokA")) (sent w).
Proof.
  exact (set_token_header_stale (const_net 200 JNull) (PStr "tokA")
           (PList [PStr "SF43718"; PStr "SF46410"]) (PStr "en")
           sample_client "tokB" FMetadata eq_refl).
Defined.

Example set_token_stale_sample :
  map (fun rq => req_headers rq !! "Bmx-Token")
      (sent (fst (run (set_token (PStr "tokB");; get_metadata (const_net 200 JNull))
                      sample_client))) = [Some (PStr "tokA")].
Proof. reflexivity. Qed.

(** ** Claim C7 *)

(** C7, counterexample: a language that is not a string raises a
    [TypeError], not a [ValueError]. *)
Lemma non_str_language_type_error :
  SIEBanxico (PStr "tok") (PStr "SF43718") (PInt 1) =
  inl (TypeError "language must be a string.").
Proof. reflexivity. Qed.

(** C7 (amended): with a string token and a series argument that is a
    string or a list of strings, construction with ["en"] or ["es"]
    succeeds and sets [params] to [{'locale': language}]; any other string
    raises a [ValueError] (["fr"] included) and a non-string language a
    [TypeError]. *)
Theorem language_validation (t : string) (id_series : pyval)
    (Hids : is_str id_series = true \/ exists l, id_series = PList (map PStr l)) :
  (forall lang, lang = PStr "en" \/ lang = PStr "es" ->
     exists c, SIEBanxico (PStr t) id_series lang = inr c /\
               params c = {[ "locale" := lang ]}) /\
  (forall s, s <> "en" -> s <> "es" ->
     exists msg, SIEBanxico (PStr t) id_series (PStr s) = inl (ValueError msg)) /\
  (forall lang, is_str lang = false ->
     exists msg, SIEBanxico (PStr t) id_series lang = inl (TypeError msg)).
Proof.
  assert (Hsel : exists sel, selector_of id_series = inr sel).
  { destruct Hids as [Hs | [l ->]].
    - destruct id_series; try discriminate. eexists; reflexivity.
    - eexists. apply selector_of_strs. }
  destruct Hsel as [sel Hsel].
  split; [|split].
  - intros lang Hl. rewrite SIEBanxico_eq, Hsel. simpl.
    destruct Hl as [-> | ->]; simpl; eexists; split; reflexivity.
  - intros s H1 H2. rewrite SIEBanxico_eq, Hsel. simpl.
    apply String.eqb_neq in H1, H2. rewrite H1, H2. simpl. eexists; reflexivity.
  - intros lang Hl. rewrite SIEBanxico_eq, Hsel. simpl. rewrite Hl. simpl.
    eexists; reflexivity.
Qed.

Lemma language_validation_witness :
  exists msg, SIEBanxico (PStr "tok") (PList [PStr "SF43718"]) (PStr "fr") =
              inl (ValueError msg).
Proof.
  destruct (language_validation "tok" (PList [PStr "SF43718"])
              (or_intror (ex_intro _ ["SF43718"] eq_refl))) as [_ [H _]].
  apply H; discriminate.
Defined.

(** ** Claim C9 *)

(** The only change a public call makes to [params] is writing a valid
    [pct_change] under ["incremento"], whether the call returns or raises. *)
Lemma invoke_params (net : request -> response) (mc : method_call) (c : client) :
  params (cl (fst (run (invoke net mc) c))) = params c \/
  exists p, In p pct_change_values /\
            params (cl (fst (run (invoke net mc) c))) = <["incremento" := p]> (params c).
Proof.
  destruct mc as [v | v | v | k]; simpl invoke; unfold run.
  - left. destruct v; reflexivity.
  - left. rewrite set_id_series_eq. destruct (selector_of v); reflexivity.
  - left. destruct v; try reflexivity. rewrite append_id_series_eq.
    destruct (py_join "," l); [reflexivity|].
    destruct (py_add _ _); reflexivity.
  - run_m. rewrite fetch_eq. simpl cl; simpl sent.
    destruct (pct_check (pct_of k)) eqn:Hc; [left; reflexivity|].
    right. exists (pct_of k). split; [apply pct_check_None, Hc|].
    destruct (url_of k _); [reflexivity|].
    simpl. destruct (finish_result _ _); reflexivity.
Qed.

(** C9: on every object a program can hold (built by the constructor, then
    changed by any sequence of public calls, returning or raising),
    [params] has ["locale"] set to ["en"] or ["es"], and ["incremento"], when
    present, is [None], ["PorcObsAnt"], ["PorcAnual"] or ["PorcAcumAnual"]. *)
Theorem reachable_params_invariant (net : request -> response) (c : client) :
  reachable net c -> params_invariant (params c).
Proof.
  induction 1 as [tok id_series lang c H | c mc _ [Hloc Hinc]].
  - destruct (SIEBanxico_ok _ _ _ _ H) as [_ [_ [_ [_ [Hp Hl]]]]].
    rewrite Hp. split.
    + rewrite lookup_singleton_eq. destruct Hl as [-> | ->]; auto.
    + left. apply lookup_singleton_ne. discriminate.
  - destruct (invoke_params net mc c) as [-> | [p [Hin ->]]]; [split; assumption|].
    split.
    + rewrite lookup_insert_ne by discriminate. exact Hloc.
    + right. exists p. split; [apply lookup_insert_eq | exact Hin].
Qed.

Lemma reachable_params_invariant_witness :
  params_invariant
    (params (cl (fst (run (invoke (const_net 200 JNull)
                                  (CFetch (FLastdata (PStr "PorcAcumAnual"))))
                          sample_client)))).
Proof.
  apply (reachable_params_invariant (const_net 200 JNull)).
  apply reach_call.
  apply (reach_new (const_net 200 JNull) (PStr "tokA")
           (PList [PStr "SF43718"; PStr "SF46410"]) (PStr "en")).
  reflexivity.
Defined.

(** * Further properties of the class *)

(** ** Helper lemmas *)

Lemma selector_of_str (v s : pyval) : selector_of v = inr s -> is_str s = true.
Proof.
  unfold selector_of. destruct v; simpl; try discriminate.
  - intros H. injection H as <-. reflexivity.
  - destruct (py_join "," l); [discriminate|]. intros H. injection H as <-. reflexivity.
Qed.

Lemma py_add_str (a b s : pyval) : py_add a b = inr s -> is_str s = true.
Proof. destruct a, b; simpl; try discriminate. intros H. injection H as <-. reflexivity. Qed.

Lemma fetch_client (net : request -> response) (k : fetch_call) (c : client) :
  cl (fst (run (fetch net k) c)) = c \/
  (In (pct_of k) pct_change_values /\
   cl (fst (run (fetch net k) c)) =
   with_params c (<["incremento" := pct_of k]> (params c))).
Proof.
  unfold run. rewrite fetch_eq. simpl cl; simpl sent.
  destruct (pct_check (pct_of k)) eqn:Hc; cbn iota beta zeta; [left; reflexivity|].
  right. split; [apply pct_check_None, Hc|].
  destruct (url_of k _); reflexivity.
Qed.

Lemma fetch_sent (net : request -> response) (k : fetch_call) (c : client) :
  length (sent (fst (run (fetch net k) c))) <= 1.
Proof.
  unfold run. rewrite fetch_eq. simpl cl; simpl sent.
  destruct (pct_check (pct_of k)); cbn iota beta zeta; simpl; [lia|].
  destruct (url_of k _); simpl; lia.
Qed.

Lemma invoke_fetch_fst (net : request -> response) (k : fetch_call) (c : client) :
  fst (run (invoke net (CFetch k)) c) = fst (run (fetch net k) c).
Proof.
  unfold run. simpl invoke. run_m.
  destruct (fetch net k _) as [w [e|v]]; reflexivity.
Qed.

(** What any public call does to the attributes other than [params]. *)
Lemma invoke_shape (net : request -> response) (mc : method_call) (c : client) :
  let c' := cl (fst (run (invoke net mc) c)) in
  url c' = url c /\ headers c' = headers c /\ language c' = language c /\
  (token c' = token c \/ is_str (token c') = true) /\
  (series c' = series c \/ is_str (series c') = true).
Proof.
  destruct mc as [v | v | v | k]; cbv zeta.
  - destruct v; (repeat split; auto).
  - unfold run; simpl invoke. rewrite set_id_series_eq.
    destruct (selector_of v) as [e|s] eqn:Hs; simpl; (repeat split; auto).
    right. eapply selector_of_str; eauto.
  - unfold run; simpl invoke. destruct v; try (repeat split; auto; fail).
    rewrite append_id_series_eq. destruct (py_join "," l); simpl; [repeat split; auto|].
    destruct (py_add _ _) as [e|s2] eqn:Ha; simpl; (repeat split; auto).
    right. eapply py_add_str; eauto.
  - rewrite invoke_fetch_fst.
    destruct (fetch_client net k c) as [-> | [_ ->]]; (repeat split; auto).
Qed.

Lemma String_concat_cons (sep x : string) (l : list string) :
  l <> [] -> String.concat sep (x :: l) = x ++ sep ++ String.concat sep l.
Proof. destruct l; [contradiction | reflexivity]. Qed.

Lemma String_concat_app (sep : string) (l1 l2 : list string) :
  l1 <> [] -> l2 <> [] ->
  String.concat sep (l1 ++ l2) = String.concat sep l1 ++ sep ++ String.concat sep l2.
Proof.
  intros H1 H2. induction l1 as [|x l1 IH]; [contradiction|].
  destruct l1 as [|y l1].
  - simpl. apply String_concat_cons, H2.
  - change (app (x :: y :: l1) l2) with (x :: app (y :: l1) l2).
    rewrite String_concat_cons by (simpl; discriminate).
    rewrite (String_concat_cons sep x (y :: l1)) by discriminate.
    rewrite IH by discriminate. rewrite !str_app_assoc. reflexivity.
Qed.

(** ** Construction checks its arguments in order *)

(** [__init__] checks the token first: a token that is not a string raises
    a [TypeError], whatever the series and language arguments are. *)
Theorem ctor_bad_token_first (tok id_series lang : pyval) :
  is_str tok = false ->
  SIEBanxico tok id_series lang = inl (TypeError "token must be a string.").
Proof. intros H. rewrite SIEBanxico_eq, H. reflexivity. Qed.

Lemma ctor_bad_token_first_witness :
  SIEBanxico (PInt 123) (PInt 0) (PStr "fr") = inl (TypeError "token must be a string.").
Proof. apply ctor_bad_token_first. reflexivity. Defined.

(** With a string token, a series argument that is neither a string nor a
    list, or a list with a non-string item, raises a [TypeError] before the
    language is looked at (an invalid language is then not reported). *)
Theorem ctor_bad_series_before_language (t : string) (id_series lang : pyval) :
  (is_str id_series = false /\ is_list id_series = false) \/
  (exists l, id_series = PList l /\ exists x, In x l /\ is_str x = false) ->
  exists msg, SIEBanxico (PStr t) id_series lang = inl (TypeError msg).
Proof.
  intros H. rewrite SIEBanxico_eq. simpl.
  destruct H as [[Hs Hl] | [l [-> Hx]]].
  - unfold selector_of. rewrite Hs, Hl. eexists; reflexivity.
  - destruct (py_join_non_str "," l Hx) as [msg Hj].
    unfold selector_of. simpl. rewrite Hj. eexists; reflexivity.
Qed.

Lemma ctor_bad_series_before_language_witness :
  exists msg, SIEBanxico (PStr "tok") (PList [PStr "SF1"; PNone]) (PStr "fr") =
              inl (TypeError msg).
Proof.
  apply ctor_bad_series_before_language. right.
  exists [PStr "SF1"; PNone]. split; [reflexivity|].
  exists PNone. split; [simpl; auto | reflexivity].
Defined.

(** ** What the mutators never do *)

(** [set_token], [set_id_series] and [append_id_series] never send a
    request and never change the URL, the headers, [params] or the
    language, whether they return or raise. *)
Theorem mutators_keep_request_state (net : request -> response) (c : client) (v : pyval) :
  forall mc, mc = CSetToken v \/ mc = CSetIdSeries v \/ mc = CAppendIdSeries v ->
  let w := fst (run (invoke net mc) c) in
  sent w = [] /\ url (cl w) = url c /\ headers (cl w) = headers c /\
  params (cl w) = params c /\ language (cl w) = language c.
Proof.
  intros mc Hmc. cbv zeta.
  destruct Hmc as [-> | [-> | ->]]; unfold run; simpl invoke.
  - destruct v; repeat split.
  - rewrite set_id_series_eq. destruct (selector_of v); repeat split.
  - destruct v; try (repeat split; fail). rewrite append_id_series_eq.
    destruct (py_join "," l); [repeat split|].
    destruct (py_add _ _); repeat split.
Qed.

Lemma mutators_keep_request_state_witness :
  sent (fst (run (invoke (const_net 200 JNull) (CAppendIdSeries (PList [PStr "SF1"])))
                 sample_client)) = [].
Proof.
  destruct (mutators_keep_request_state (const_net 200 JNull) sample_client
              (PList [PStr "SF1"]) (CAppendIdSeries (PList [PStr "SF1"]))
              (or_intror (or_intror eq_refl))) as [H _].
  exact H.
Defined.

(** ** What the fetch methods never do *)

(** A fetch call changes no attribute but [params] (token, selector, URL,
    headers and language stay as they were) and sends at most one
    request. *)
Theorem fetch_keeps_attributes (net : request -> response) (k : fetch_call) (c : client) :
  let w := fst (run (fetch net k) c) in
  token (cl w) = token c /\ series (cl w) = series c /\ url (cl w) = url c /\
  headers (cl w) = headers c /\ language (cl w) = language c /\
  length (sent w) <= 1.
Proof.
  cbv zeta. pose proof (fetch_sent net k c) as Hs.
  destruct (fetch_client net k c) as [-> | [_ ->]]; repeat split; exact Hs.
Qed.

(** No public call, returning or raising, changes the URL, the headers or
    the ["locale"] entry of [params]: they keep the values the constructor
    gave them. *)
Theorem calls_keep_locale_and_headers (net : request -> response)
    (mc : method_call) (c : client) :
  let c' := cl (fst (run (invoke net mc) c)) in
  url c' = url c /\ headers c' = headers c /\
  params c' !! "locale" = params c !! "locale".
Proof.
  cbv zeta. destruct (invoke_shape net mc c) as [Hu [Hh _]].
  split; [exact Hu|]. split; [exact Hh|].
  destruct (invoke_params net mc c) as [-> | [p [_ ->]]]; [reflexivity|].
  apply lookup_insert_ne. discriminate.
Qed.

(** ** The shape of every object a program can hold *)

(** On every reachable object the token and the selector are strings, the
    URL is the base URL, and the headers are [{'Bmx-Token': t}] for a
    string [t] (the constructor's token). *)
Theorem reachable_shape (net : request -> response) (c : client) :
  reachable net c ->
  is_str (token c) = true /\ (exists sel, series c = PStr sel) /\
  url c = base_url /\ exists t, headers c = {[ "Bmx-Token" := PStr t ]}.
Proof.
  induction 1 as [tok id_series lang c H | c mc _ [Ht [[sel Hs] [Hu [t Hh]]]]].
  - destruct (SIEBanxico_ok _ _ _ _ H) as [Htok [Hsel [Hu [Hh _]]]].
    rewrite (SIEBanxico_token _ _ _ _ H).
    split; [exact Htok|]. split; [|split; [exact Hu|]].
    + apply selector_of_str in Hsel. destruct (series c); try discriminate. eauto.
    + destruct tok; try discriminate. eauto.
  - destruct (invoke_shape net mc c) as [Hu' [Hh' [_ [Ht' Hs']]]].
    split; [destruct Ht' as [-> | ?]; assumption|].
    split; [|split; [congruence | exists t; congruence]].
    destruct Hs' as [-> | Hs']; [eauto|].
    destruct (series (cl (fst (run (invoke net mc) c)))); try discriminate. eauto.
Qed.

Lemma reachable_shape_witness :
  url (cl (fst (run (invoke (const_net 200 JNull) (CSetIdSeries (PStr "SF1-SF9")))
                    sample_client))) = base_url.
Proof.
  apply (reachable_shape (const_net 200 JNull)).
  apply reach_call.
  apply (reach_new (const_net 200 JNull) (PStr "tokA")
           (PList [PStr "SF43718"; PStr "SF46410"]) (PStr "en")).
  reflexivity.
Defined.

(** ** Fetch calls on reachable objects *)


Lemma fetch_client_valid (net : request -> response) (k : fetch_call) (c : client) :
  In (pct_of k) pct_change_values ->
  cl (fst (run (fetch net k) c)) = with_params c (<["incremento" := pct_of k]> (params c)).
Proof.
  intros Hin. unfold run. rewrite fetch_eq, (pct_check_In _ Hin). cbn iota beta zeta.
  destruct (url_of k _); reflexivity.
Qed.



(** ** [incremento] across calls *)

(** [get_metadata] always writes [None] under ["incremento"] before its
    request, so a percentage mode left by an earlier call is never sent with
    the metadata request. *)
Theorem get_metadata_resets_incremento (net : request -> response) (c : client) :
  let w := fst (run (get_metadata net) c) in
  params (cl w) = <["incremento" := PNone]> (params c) /\
  Forall (fun rq => req_params rq = <["incremento" := PNone]> (params c)) (sent w).
Proof.
  cbv zeta. change (get_metadata net) with (fetch net FMetadata).
  unfold run. rewrite fetch_eq. simpl pct_of. simpl pct_check. cbn iota beta zeta.
  destruct (url_of FMetadata _); simpl; split; try reflexivity; repeat constructor.
Qed.

(** The ["incremento"] entry after two fetch calls is the second call's
    valid [pct_change], whatever the first call did (returned, raised, or
    wrote its own mode). *)
Theorem last_pct_change_wins (net : request -> response) (k1 k2 : fetch_call) (c : client) :
  In (pct_of k2) pct_change_values ->
  let c1 := cl (fst (run (fetch net k1) c)) in
  params (cl (fst (run (fetch net k2) c1))) = <["incremento" := pct_of k2]> (params c).
Proof.
  intros Hin. cbv zeta. rewrite (fetch_client_valid net k2 _ Hin). simpl.
  destruct (fetch_client net k1 c) as [-> | [_ ->]]; [reflexivity|].
  simpl. apply insert_insert_eq.
Qed.

Lemma last_pct_change_wins_witness :
  params (cl (fst (run (fetch (const_net 200 JNull) FMetadata)
                    (cl (fst (run (fetch (const_net 200 JNull) (FLastdata (PStr "PorcAnual")))
                                  sample_client)))))) =
  <["incremento" := PNone]> (params sample_client).
Proof.
  apply (last_pct_change_wins (const_net 200 JNull) (FLastdata (PStr "PorcAnual"))
           FMetadata sample_client).
  simpl. auto.
Defined.

(** ** Selector edits compose *)

(** Setting a non-empty list of ids and then appending a non-empty list
    gives exactly the state of setting the concatenated list at once. *)
Theorem set_then_append (c : client) (l1 l2 : list string) :
  l1 <> [] -> l2 <> [] ->
  run (set_id_series (PList (map PStr l1));; append_id_series (PList (map PStr l2))) c =
  run (set_id_series (PList (map PStr (app l1 l2)))) c.
Proof.
  intros H1 H2. unfold run. run_m.
  rewrite !set_id_series_eq, !selector_of_strs. cbn iota beta zeta.
  rewrite append_id_series_eq, py_join_strs. simpl.
  rewrite String_concat_app by assumption. reflexivity.
Qed.

Lemma set_then_append_witness :
  run (set_id_series (PList [PStr "SF1"]);; append_id_series (PList [PStr "SF2"; PStr "SF3"]))
      sample_client =
  run (set_id_series (PList [PStr "SF1"; PStr "SF2"; PStr "SF3"])) sample_client.
Proof.
  apply (set_then_append sample_client ["SF1"] ["SF2"; "SF3"]); discriminate.
Defined.

(** An empty list of ids sets the empty selector: the next [get_metadata]
    requests the bare base URL. *)
Theorem empty_series_list_bare_url (net : request -> response) (c : client) :
  reachable net c ->
  map req_url (sent (fst (run (set_id_series (PList []);; get_metadata net) c))) =
  [base_url].
Proof.
  intros Hr. destruct (reachable_shape net c Hr) as [_ [_ [Hu _]]].
  unfold run. run_m. rewrite set_id_series_eq.
  change (selector_of (PList [])) with (@inr exn pyval (PStr "")). cbn iota beta.
  change (get_metadata net) with (fetch net FMetadata).
  rewrite fetch_eq. simpl. rewrite Hu, str_app_nil_r. reflexivity.
Qed.

Lemma empty_series_list_bare_url_witness :
  map req_url (sent (fst (run (set_id_series (PList []);; get_metadata (const_net 200 JNull))
                            sample_client))) = [base_url].
Proof.
  apply empty_series_list_bare_url.
  apply (reach_new (const_net 200 JNull) (PStr "tokA")
           (PList [PStr "SF43718"; PStr "SF46410"]) (PStr "en")).
  reflexivity.
Defined.
